(** * polls/models.py: the poll data model

    A shallow embedding of [polls/models.py]: the two model classes
    [Question] and [Choice], their field declarations, the methods
    [__str__] and [was_published_recently], and the persistence operations
    that the field declarations govern. *)

From stdpp Require Import gmap strings list fin_maps.
From Stdlib Require Import ZArith Lia.

Local Open Scope Z_scope.

(** ** Python's [datetime] module, as far as [models.py] uses it *)

Module datetime.

(** [datetime.timedelta]: a duration, kept normalised as Python keeps it,
    with [0 <= seconds < 86400] and [0 <= microseconds < 1000000]. *)
Record timedelta : Type := mk_timedelta {
  days : Z;
  seconds : Z;
  microseconds : Z
}.

(** The constructor [timedelta(days=d, seconds=s, microseconds=us)] on
    integer arguments: carries are pushed upwards with floor division. *)
Definition new_timedelta (d s us : Z) : timedelta :=
  let s' := s + us / 1000000 in
  {| days := d + s' / 86400;
     seconds := s' mod 86400;
     microseconds := us mod 1000000 |}.

(** The length of a duration in microseconds
    ([td / timedelta(microseconds=1)]). *)
Definition total_microseconds (td : timedelta) : Z :=
  (days td * 86400 + seconds td) * 1000000 + microseconds td.

(** An aware [datetime.datetime]: the wall-clock reading, counted in
    microseconds from 0001-01-01T00:00:00 of its own time zone, and the
    offset of that zone from UTC ([tzinfo.utcoffset]), in microseconds.
    [pub_date] is a timezone-aware timestamp and [timezone.now()] is
    aware too, so naive values do not occur.  The calendar range of
    [datetime] (years 1 to 9999) is not represented. *)
Record datetime : Type := mk_datetime {
  wall : Z;
  utcoffset : Z
}.

(** The instant on the UTC time line that an aware datetime denotes. *)
Definition instant (dt : datetime) : Z := wall dt - utcoffset dt.

(** [dt - td]: wall-clock arithmetic, the zone is kept. *)
Definition sub (dt : datetime) (td : timedelta) : datetime :=
  {| wall := wall dt - total_microseconds td; utcoffset := utcoffset dt |}.

(** [dt + td]. *)
Definition add (dt : datetime) (td : timedelta) : datetime :=
  {| wall := wall dt + total_microseconds td; utcoffset := utcoffset dt |}.

(** [dt.astimezone(tz)]: the same instant, read on the wall clock of the
    zone whose offset from UTC is [offset]. *)
Definition astimezone (dt : datetime) (offset : Z) : datetime :=
  {| wall := instant dt + offset; utcoffset := offset |}.

(** Three-way comparison of two aware datetimes: with the same offset
    the wall-clock readings are compared, otherwise both are first
    adjusted by subtracting their offsets. *)
Definition cmp (a b : datetime) : comparison :=
  if utcoffset a =? utcoffset b
  then wall a ?= wall b
  else (wall a - utcoffset a) ?= (wall b - utcoffset b).

(** [a >= b]. *)
Definition ge (a b : datetime) : bool :=
  match cmp a b with
  | Lt => false
  | _ => true
  end.

End datetime.

(** ** The model classes *)

(** An instance of [class Question(models.Model)]. [Question_id] is the
    automatic primary key [id]; a text is a string of characters, one
    [ascii] each. *)
Record Question : Type := mk_Question {
  Question_id : Z;
  question_text : string;
  pub_date : datetime.datetime
}.

(** An instance of [class Choice(models.Model)]. [question_id] is the value
    of the foreign key [question]: the primary key of the owning
    [Question]. [votes] is a Python [int]. *)
Record Choice : Type := mk_Choice {
  Choice_id : Z;
  question_id : Z;
  choice_text : string;
  votes : Z
}.

(** ** Field declarations

    The field classes of [django.db.models] that the two model classes
    instantiate, with the arguments the source passes to them. *)

Module models.

Record CharField : Type := { max_length : nat }.

Record DateTimeField : Type := { verbose_name : string }.

Inductive on_delete_rule : Type :=
| CASCADE
| PROTECT.

Record ForeignKey : Type := { on_delete : on_delete_rule }.

Record PositiveIntegerField : Type := { default : Z }.

End models.

(** [question_text = models.CharField(max_length=200)] *)
Definition Question_question_text : models.CharField :=
  {| models.max_length := 200 |}.

(** [pub_date = models.DateTimeField('date published')] *)
Definition Question_pub_date : models.DateTimeField :=
  {| models.verbose_name := "date published" |}.

(** [question = models.ForeignKey(Question, on_delete=models.CASCADE)] *)
Definition Choice_question : models.ForeignKey :=
  {| models.on_delete := models.CASCADE |}.

(** [choice_text = models.CharField(max_length=200)] *)
Definition Choice_choice_text : models.CharField :=
  {| models.max_length := 200 |}.

(** [votes = models.PositiveIntegerField(default=0)] *)
Definition Choice_votes : models.PositiveIntegerField :=
  {| models.default := 0 |}.

(** ** The state the methods run in *)

(** The two tables and their primary-key sequences. *)
Record Database : Type := mk_Database {
  questions : gmap Z Question;
  choices : gmap Z Choice;
  next_question_id : Z;
  next_choice_id : Z
}.

(** What a method can see besides its receiver: the system clock that
    [timezone.now()] reads, and the database. *)
Record World : Type := mk_World {
  clock : datetime.datetime;
  database : Database
}.

(** A method body: it receives [self] and the world, and hands both back
    next to its return value, so an assignment to an attribute of [self]
    or a write to the database would show in the result. *)
Definition Method (Self A : Type) : Type := Self → World → A * Self * World.

#[export] Instance Method_ret {Self} : MRet (Method Self) :=
  λ A (a : A) self w, (a, self, w).

#[export] Instance Method_bind {Self} : MBind (Method Self) :=
  λ A B (k : A → Method Self B) (m : Method Self A) self w,
    let '(a, self', w') := m self w in k a self' w'.

(** [self.field] *)
Definition getattr {Self A} (field : Self → A) : Method Self A :=
  λ self w, (field self, self, w).

Module timezone.

(** [timezone.now()]: the current reading of the clock. *)
Definition now {Self} : Method Self datetime.datetime :=
  λ self w, (clock w, self, w).

End timezone.

(** ** The methods of [models.py] *)

(** [def __str__(self): return self.question_text] *)
Definition Question__str__ : Method Question string :=
  getattr question_text.

(** [def was_published_recently(self):
       return self.pub_date >= timezone.now() - datetime.timedelta(days=1)] *)
Definition was_published_recently : Method Question bool :=
  published ← getattr pub_date;
  current ← timezone.now;
  mret (datetime.ge published
          (datetime.sub current (datetime.new_timedelta 1 0 0))).

(** [def __str__(self): return self.choice_text] *)
Definition Choice__str__ : Method Choice string :=
  getattr choice_text.

(** [str(obj)] dispatches on the class of [obj]. *)
Class HasStr (T : Type) : Type := __str__ : Method T string.

#[export] Instance Question_HasStr : HasStr Question := Question__str__.
#[export] Instance Choice_HasStr : HasStr Choice := Choice__str__.

(** The value a method call returns, the receiver after the call and the
    world after the call. *)
Definition result {Self A} (r : A * Self * World) : A := r.1.1.
Definition self_after {Self A} (r : A * Self * World) : Self := r.1.2.
Definition world_after {Self A} (r : A * Self * World) : World := r.2.

(** ** The persistence layer

    [models.py] declares the schema; the object manager and the database
    that store the instances ([Question.objects.create], [Model.delete],
    [Question.objects.get], the transaction around a cascading delete) are
    not part of it.  The operations below read every constraint they
    enforce from the field declarations above. *)

Inductive error : Type :=
| ConstraintViolation
| NotFound.

Inductive Result (A : Type) : Type :=
| Ok (a : A)
| Err (e : error).

Arguments Ok {A} a.
Arguments Err {A} e.

(** Modelled from the spec: the length check of the storage layer on a
    [CharField] column (the code that enforces [max_length] is missing
    from the source): the text has at most [max_length] characters. *)
Definition fits (f : models.CharField) (s : string) : bool :=
  (String.length s <=? models.max_length f)%nat.

(** Modelled from the spec: the range check of the storage layer on a
    [PositiveIntegerField] column (missing from the source): the value is
    a non-negative integer. *)
Definition in_range (f : models.PositiveIntegerField) (v : Z) : bool :=
  0 <=? v.

(** A database with no rows, whose keys start at 1. *)
Definition empty_database : Database :=
  {| questions := ∅; choices := ∅;
     next_question_id := 1; next_choice_id := 1 |}.

(** Modelled from the spec: [create(question_text, pub_date) -> Question]
    (the object manager is missing from the source).  [date = None] is a
    call that leaves [pub_date] out. *)
Definition create (text : string) (date : option datetime.datetime)
    (db : Database) : Result (Question * Database) :=
  if negb (fits Question_question_text text) then Err ConstraintViolation
  else
    match date with
    | None => Err ConstraintViolation
    | Some d =>
        let q := {| Question_id := next_question_id db;
                    question_text := text;
                    pub_date := d |} in
        Ok (q, {| questions := <[next_question_id db := q]> (questions db);
                  choices := choices db;
                  next_question_id := next_question_id db + 1;
                  next_choice_id := next_choice_id db |})
    end.

(** Modelled from the spec: [create_choice(question, choice_text, votes=0)
    -> Choice] (the object manager is missing from the source).
    [v = None] is a call that leaves [votes] out, which then takes the
    declared default. *)
Definition create_choice (q : Question) (text : string) (v : option Z)
    (db : Database) : Result (Choice * Database) :=
  let n := default (models.default Choice_votes) v in
  match questions db !! Question_id q with
  | None => Err ConstraintViolation
  | Some _ =>
      if negb (fits Choice_choice_text text) then Err ConstraintViolation
      else if negb (in_range Choice_votes n) then Err ConstraintViolation
      else
        let c := {| Choice_id := next_choice_id db;
                    question_id := Question_id q;
                    choice_text := text;
                    votes := n |} in
        Ok (c, {| questions := questions db;
                  choices := <[next_choice_id db := c]> (choices db);
                  next_question_id := next_question_id db;
                  next_choice_id := next_choice_id db + 1 |})
  end.

(** Modelled from the spec: lookup of a Question by primary identifier
    (the query interface is missing from the source). *)
Definition get_question (pk : Z) (db : Database) : Result Question :=
  match questions db !! pk with
  | Some q => Ok q
  | None => Err NotFound
  end.

(** Modelled from the spec: lookup of a Choice by primary identifier (the
    query interface is missing from the source). *)
Definition get_choice (pk : Z) (db : Database) : Result Choice :=
  match choices db !! pk with
  | Some c => Ok c
  | None => Err NotFound
  end.

(** Modelled from the spec: lookup of all Choices for a given Question
    (the query interface is missing from the source), with their keys. *)
Definition choice_set (q : Question) (db : Database) : list (Z * Choice) :=
  map_to_list (filter (λ kc, question_id kc.2 = Question_id q) (choices db)).

(** Modelled from the spec: the increment of [votes] that an external
    caller performs and saves (the caller and the save are missing from
    the source). *)
Definition increment_votes (pk : Z) (db : Database) : Result Database :=
  match choices db !! pk with
  | None => Err NotFound
  | Some c =>
      let c' := {| Choice_id := Choice_id c;
                   question_id := question_id c;
                   choice_text := choice_text c;
                   votes := votes c + 1 |} in
      if negb (in_range Choice_votes (votes c')) then Err ConstraintViolation
      else Ok {| questions := questions db;
                 choices := <[pk := c']> (choices db);
                 next_question_id := next_question_id db;
                 next_choice_id := next_choice_id db |}
  end.

(** *** Cascading delete, inside one transaction *)

(** Modelled from the spec: the row deletions that a delete is made of
    (the statements sent to the database are missing from the source). *)
Inductive statement : Type :=
| DELETE_Choice (pk : Z)
| DELETE_Question (pk : Z).

(** Modelled from the spec: the effect of one row deletion on the two
    tables (the database is missing from the source). *)
Definition execute (s : statement) (db : Database) : Database :=
  match s with
  | DELETE_Choice pk =>
      {| questions := questions db;
         choices := delete pk (choices db);
         next_question_id := next_question_id db;
         next_choice_id := next_choice_id db |}
  | DELETE_Question pk =>
      {| questions := delete pk (questions db);
         choices := choices db;
         next_question_id := next_question_id db;
         next_choice_id := next_choice_id db |}
  end.

(** Modelled from the spec: what deleting a Question consists of, by the
    [on_delete] rule declared on [Choice.question] (the collector of
    dependent rows is missing from the source): under [CASCADE] the
    children are deleted, then the parent. *)
Definition delete_plan (q : Question) (db : Database)
    : Result (list statement) :=
  match models.on_delete Choice_question with
  | models.CASCADE =>
      Ok ((DELETE_Choice <$> (choice_set q db).*1)
            ++ [DELETE_Question (Question_id q)])
  | models.PROTECT =>
      match choice_set q db with
      | [] => Ok [DELETE_Question (Question_id q)]
      | _ :: _ => Err ConstraintViolation
      end
  end.

(** Modelled from the spec: the run of a plan inside a transaction (the
    database is missing from the source).  At most [steps] statements of
    [plan] run on the working copy [work]; the result is the working copy
    reached and the statements left. *)
Fixpoint run_statements (steps : nat) (plan : list statement)
    (work : Database) : Database * list statement :=
  match steps, plan with
  | S n, s :: rest => run_statements n rest (execute s work)
  | _, _ => (work, plan)
  end.

(** Modelled from the spec: one transaction of the storage layer (missing
    from the source).  The statements run on a working copy; the copy is
    committed when the plan has run to its end, and dropped when the run
    is cut short (a crash after [steps] statements), which leaves the
    committed database as it was. *)
Definition transaction (steps : nat) (plan : list statement)
    (db : Database) : Database :=
  match run_statements steps plan db with
  | (work, []) => work
  | (_, _ :: _) => db
  end.

(** Modelled from the spec: [delete(question)] (the object manager is
    missing from the source), run to its end. *)
Definition delete_question (q : Question) (db : Database)
    : Result Database :=
  match questions db !! Question_id q with
  | None => Err NotFound
  | Some _ =>
      match delete_plan q db with
      | Ok plan => Ok (transaction (length plan) plan db)
      | Err e => Err e
      end
  end.

(** Modelled from the spec: the committed database that is observable
    when [delete(question)] is cut short after [steps] statements (the
    transaction is missing from the source). *)
Definition delete_observed (steps : nat) (q : Question) (db : Database)
    : Database :=
  match questions db !! Question_id q, delete_plan q db with
  | Some _, Ok plan => transaction steps plan db
  | _, _ => db
  end.

(** *** Histories of operations *)

(** Modelled from the spec: the operations a caller can perform on the
    stored data (the callers are missing from the source). [DeleteCut] is a
    delete that is cut short after [steps] statements. *)
Inductive operation : Type :=
| Create (text : string) (date : option datetime.datetime)
| CreateChoice (q : Question) (text : string) (v : option Z)
| Delete (q : Question)
| DeleteCut (steps : nat) (q : Question)
| IncrementVotes (pk : Z).

(** Modelled from the spec: the database after one operation of a caller
    (the callers are missing from the source); a failed operation changes
    nothing. *)
Definition step (op : operation) (db : Database) : Database :=
  match op with
  | Create text date =>
      match create text date db with Ok (_, db') => db' | Err _ => db end
  | CreateChoice q text v =>
      match create_choice q text v db with Ok (_, db') => db' | Err _ => db end
  | Delete q =>
      match delete_question q db with Ok db' => db' | Err _ => db end
  | DeleteCut steps q => delete_observed steps q db
  | IncrementVotes pk =>
      match increment_votes pk db with Ok db' => db' | Err _ => db end
  end.

(** Modelled from the spec: the database after a history of operations,
    oldest first (the callers are missing from the source). *)
Definition run (ops : list operation) (db : Database) : Database :=
  foldl (λ d op, step op d) db ops.

(** ** Units of the time line, in microseconds *)

Definition one_second : Z := 1000000.
Definition one_hour : Z := 3600 * one_second.
Definition one_day : Z := 86400 * one_second.

(** A [Question] that differs from [q] in its [pub_date] only. *)
Definition with_pub_date (q : Question) (d : datetime.datetime) : Question :=
  {| Question_id := Question_id q;
     question_text := question_text q;
     pub_date := d |}.

(** A [World] that differs from [w] in the reading of its clock only. *)
Definition at_time (w : World) (d : datetime.datetime) : World :=
  {| clock := d; database := database w |}.

(** The invariant of the foreign key [Choice.question]: every stored
    Choice is related to a stored Question. *)
Definition every_choice_has_its_question (db : Database) : Prop :=
  ∀ pk c, choices db !! pk = Some c → is_Some (questions db !! question_id c).

(** The invariant of the [votes] column: no stored Choice has a negative
    count. *)
Definition votes_non_negative (db : Database) : Prop :=
  ∀ pk c, choices db !! pk = Some c → 0 ≤ votes c.

(** ** Sample data

    The scenario of a poll published on 2024-01-01T00:00:00Z with two
    choices. *)

(** 2024-01-01T00:00:00Z: day 738885 after 0001-01-01. *)
Definition new_year_2024 : datetime.datetime :=
  {| datetime.wall := 738885 * one_day; datetime.utcoffset := 0 |}.

Definition whats_new : Question :=
  {| Question_id := 1; question_text := "What's new?";
     pub_date := new_year_2024 |}.

Definition poll_history : list operation :=
  [ Create "What's new?" (Some new_year_2024);
    CreateChoice whats_new "Not much" (Some 0);
    CreateChoice whats_new "The sky" None ].

Definition poll_database : Database := run poll_history empty_database.

(** One hour before the poll is published. *)
Definition hour_before : World :=
  {| clock := datetime.sub new_year_2024 (datetime.new_timedelta 0 3600 0);
     database := poll_database |}.

(** Another question with the same [pub_date], and another world with the
    same clock reading. *)
Definition whats_up : Question :=
  {| Question_id := 7; question_text := "What's up?";
     pub_date := new_year_2024 |}.

Definition hour_before_empty : World :=
  {| clock := clock hour_before; database := empty_database |}.

(** The poll database, read [n] days after the poll is published. *)
Definition days_after (n : Z) : World :=
  {| clock := datetime.add new_year_2024 (datetime.new_timedelta n 0 0);
     database := poll_database |}.

(** A question published twelve hours after [whats_new]. *)
Definition whats_next : Question :=
  {| Question_id := 2; question_text := "What's next?";
     pub_date :=
       datetime.add new_year_2024 (datetime.new_timedelta 0 43200 0) |}.

(** ** Properties of [datetime] *)

Lemma total_microseconds_new (d s us : Z) :
  datetime.total_microseconds (datetime.new_timedelta d s us)
  = (d * 86400 + s) * 1000000 + us.
Proof.
  unfold datetime.total_microseconds, datetime.new_timedelta; cbn.
  pose proof (Z.div_mod us 1000000 ltac:(lia)) as Hus.
  pose proof (Z.div_mod (s + us / 1000000) 86400 ltac:(lia)) as Hs.
  lia.
Qed.

Lemma new_timedelta_normal (d s us : Z) :
  let td := datetime.new_timedelta d s us in
  0 ≤ datetime.seconds td < 86400 ∧ 0 ≤ datetime.microseconds td < 1000000.
Proof.
  cbn. split; apply Z.mod_pos_bound; lia.
Qed.

Lemma instant_sub (dt : datetime.datetime) (td : datetime.timedelta) :
  datetime.instant (datetime.sub dt td)
  = datetime.instant dt - datetime.total_microseconds td.
Proof. unfold datetime.instant, datetime.sub; cbn. lia. Qed.

Lemma instant_add (dt : datetime.datetime) (td : datetime.timedelta) :
  datetime.instant (datetime.add dt td)
  = datetime.instant dt + datetime.total_microseconds td.
Proof. unfold datetime.instant, datetime.add; cbn. lia. Qed.

Lemma instant_astimezone (dt : datetime.datetime) (offset : Z) :
  datetime.instant (datetime.astimezone dt offset) = datetime.instant dt.
Proof. unfold datetime.astimezone, datetime.instant; cbn. lia. Qed.

(** [a >= b] compares the instants, whatever the two zones are. *)
Lemma ge_instant (a b : datetime.datetime) :
  datetime.ge a b = true ↔ datetime.instant b ≤ datetime.instant a.
Proof.
  unfold datetime.ge, datetime.cmp, datetime.instant.
  destruct (Z.eqb_spec (datetime.utcoffset a) (datetime.utcoffset b)) as [E|E].
  - destruct (Z.compare_spec (datetime.wall a) (datetime.wall b));
      split; intros; try done; lia.
  - destruct (Z.compare_spec (datetime.wall a - datetime.utcoffset a)
                (datetime.wall b - datetime.utcoffset b));
      split; intros; try done; lia.
Qed.

Lemma ge_instant_false (a b : datetime.datetime) :
  datetime.ge a b = false ↔ datetime.instant a < datetime.instant b.
Proof.
  pose proof (ge_instant a b) as H.
  destruct (datetime.ge a b).
  - split; [done|]. intros Hlt.
    assert (datetime.instant b ≤ datetime.instant a) by (by apply H). lia.
  - split; [|done]. intros _.
    destruct (decide (datetime.instant b ≤ datetime.instant a)) as [Hle|Hgt];
      [|lia].
    apply H in Hle. done.
Qed.

(** ** Properties of the methods *)

Lemma was_published_recently_run (q : Question) (w : World) :
  was_published_recently q w
  = (datetime.ge (pub_date q)
       (datetime.sub (clock w) (datetime.new_timedelta 1 0 0)), q, w).
Proof. reflexivity. Qed.

Lemma day_window : datetime.total_microseconds (datetime.new_timedelta 1 0 0) = one_day.
Proof. reflexivity. Qed.

Lemma was_published_recently_true (q : Question) (w : World) :
  result (was_published_recently q w) = true
  ↔ datetime.instant (clock w) - one_day ≤ datetime.instant (pub_date q).
Proof.
  rewrite was_published_recently_run. unfold result; cbn [fst snd].
  rewrite ge_instant, instant_sub, day_window. done.
Qed.

Lemma was_published_recently_false (q : Question) (w : World) :
  result (was_published_recently q w) = false
  ↔ datetime.instant (pub_date q) < datetime.instant (clock w) - one_day.
Proof.
  rewrite was_published_recently_run. unfold result; cbn [fst snd].
  rewrite ge_instant_false, instant_sub, day_window. done.
Qed.

(** ** [was_published_recently] *)

(** A poll published at midnight, asked about at noon of the same day, at
    the same midnight one day later, and one microsecond after that. *)
Example was_published_recently_samples :
  let at_offset us :=
    {| clock := {| datetime.wall := 738885 * one_day + us;
                   datetime.utcoffset := 0 |};
       database := poll_database |} in
  result (was_published_recently whats_new (at_offset (12 * one_hour))) = true
  ∧ result (was_published_recently whats_new (at_offset one_day)) = true
  ∧ result (was_published_recently whats_new (at_offset (one_day + 1))) = false.
Proof. cbv zeta. repeat split; by vm_compute. Qed.

(** C1: for every Question [q] and every reading [now] of the clock,
    [was_published_recently] returns true if and only if [pub_date] is not
    earlier than the instant one day before [now]. *)
Theorem was_published_recently_iff (q : Question) (w : World) :
  let now := clock w in
  (result (was_published_recently q w) = true
   ↔ datetime.instant now - one_day ≤ datetime.instant (pub_date q))
  ∧ (result (was_published_recently q w) = false
     ↔ ¬ datetime.instant now - one_day ≤ datetime.instant (pub_date q)).
Proof.
  cbv zeta. split; [apply was_published_recently_true|].
  rewrite was_published_recently_false. lia.
Qed.

(** C3: the lower bound is inclusive: with [pub_date] exactly one day
    before [now] (read in any time zone) the method returns true, and with
    [pub_date] one second earlier than that it returns false. *)
Theorem was_published_recently_boundary
    (q : Question) (w : World) (offset : Z) :
  let now := clock w in
  let day := datetime.new_timedelta 1 0 0 in
  let second := datetime.new_timedelta 0 1 0 in
  let day_ago := datetime.astimezone (datetime.sub now day) offset in
  let earlier :=
    datetime.astimezone (datetime.sub (datetime.sub now day) second) offset in
  result (was_published_recently (with_pub_date q day_ago) w) = true
  ∧ result (was_published_recently (with_pub_date q earlier) w) = false.
Proof.
  cbv zeta. split.
  - apply was_published_recently_true. cbn [pub_date with_pub_date].
    rewrite instant_astimezone, instant_sub, day_window. lia.
  - apply was_published_recently_false. cbn [pub_date with_pub_date].
    rewrite instant_astimezone, !instant_sub, day_window.
    rewrite total_microseconds_new. lia.
Qed.

(** C4: a [pub_date] in the future of [now] is reported as recent: the
    method has no guard against future publication dates. *)
Theorem was_published_recently_future (q : Question) (w : World) :
  datetime.instant (clock w) < datetime.instant (pub_date q) →
  result (was_published_recently q w) = true.
Proof.
  intros Hfuture. apply was_published_recently_true.
  unfold one_day, one_second. lia.
Qed.

Lemma was_published_recently_future_witness :
  pub_date whats_new
  = datetime.add (clock hour_before) (datetime.new_timedelta 0 3600 0)
  ∧ datetime.instant (clock hour_before) < datetime.instant (pub_date whats_new)
  ∧ result (was_published_recently whats_new hour_before) = true.
Proof.
  split; [reflexivity|]. split; [reflexivity|].
  apply (was_published_recently_future whats_new hour_before).
  reflexivity.
Defined.

(** C9: the window is [timedelta(days=1)], exactly 86400 seconds of
    elapsed time: the method returns true as long as the time elapsed
    from [pub_date] to [now] is at most 86400 seconds and false as soon as
    it exceeds them, and reading either timestamp in another time zone
    does not change the result. *)
Theorem was_published_recently_window (q : Question) (w : World) :
  let elapsed := datetime.instant (clock w) - datetime.instant (pub_date q) in
  datetime.new_timedelta 1 0 0
  = {| datetime.days := 1; datetime.seconds := 0; datetime.microseconds := 0 |}
  ∧ datetime.total_microseconds (datetime.new_timedelta 1 0 0)
    = 86400 * one_second
  ∧ (result (was_published_recently q w) = true ↔ elapsed ≤ 86400 * one_second)
  ∧ (result (was_published_recently q w) = false ↔ 86400 * one_second < elapsed)
  ∧ ∀ zone_q zone_now : Z,
      result (was_published_recently
                (with_pub_date q (datetime.astimezone (pub_date q) zone_q))
                (at_time w (datetime.astimezone (clock w) zone_now)))
      = result (was_published_recently q w).
Proof.
  cbv zeta. split; [reflexivity|]. split; [reflexivity|].
  split; [|split].
  - rewrite was_published_recently_true. unfold one_day. lia.
  - rewrite was_published_recently_false. unfold one_day. lia.
  - intros zone_q zone_now.
    destruct (result (was_published_recently q w)) eqn:E.
    + apply was_published_recently_true in E.
      apply was_published_recently_true.
      cbn [pub_date with_pub_date clock at_time].
      by rewrite !instant_astimezone.
    + apply was_published_recently_false in E.
      apply was_published_recently_false.
      cbn [pub_date with_pub_date clock at_time].
      by rewrite !instant_astimezone.
Qed.

(** C10: the result depends only on [pub_date] and on the current time:
    two Questions with equal [pub_date], asked at the same reading of the
    clock, get the same answer whatever their text, their id and the
    Choices stored for them, and the call changes neither Question nor
    the world. *)
Theorem was_published_recently_depends_on_pub_date
    (q1 q2 : Question) (w1 w2 : World) :
  pub_date q1 = pub_date q2 →
  clock w1 = clock w2 →
  result (was_published_recently q1 w1) = result (was_published_recently q2 w2)
  ∧ self_after (was_published_recently q1 w1) = q1
  ∧ self_after (was_published_recently q2 w2) = q2
  ∧ world_after (was_published_recently q1 w1) = w1
  ∧ world_after (was_published_recently q2 w2) = w2.
Proof.
  intros Hdate Hclock. rewrite !was_published_recently_run.
  unfold result, self_after, world_after; cbn [fst snd].
  rewrite Hdate, Hclock. done.
Qed.

Lemma was_published_recently_depends_on_pub_date_witness :
  question_text whats_new ≠ question_text whats_up
  ∧ Question_id whats_new ≠ Question_id whats_up
  ∧ choice_set whats_new (database hour_before)
    ≠ choice_set whats_up (database hour_before_empty)
  ∧ result (was_published_recently whats_new hour_before)
    = result (was_published_recently whats_up hour_before_empty).
Proof.
  split; [discriminate|]. split; [discriminate|]. split; [by vm_compute|].
  apply (was_published_recently_depends_on_pub_date
           whats_new whats_up hour_before hour_before_empty);
    reflexivity.
Defined.

(** X1: recency expires for good: when the method answers false at one
    reading of the clock, it answers false at every later reading,
    whatever else has changed in the world. *)
Theorem was_published_recently_expires (q : Question) (w1 w2 : World) :
  datetime.instant (clock w1) ≤ datetime.instant (clock w2) →
  result (was_published_recently q w1) = false →
  result (was_published_recently q w2) = false.
Proof.
  intros Hlater Hold. apply was_published_recently_false.
  apply was_published_recently_false in Hold. lia.
Qed.

Lemma was_published_recently_expires_witness :
  datetime.instant (clock (days_after 2))
  ≤ datetime.instant (clock (days_after 3))
  ∧ result (was_published_recently whats_new (days_after 2)) = false
  ∧ result (was_published_recently whats_new (days_after 3)) = false.
Proof.
  assert (Hold : result (was_published_recently whats_new (days_after 2))
                 = false) by reflexivity.
  assert (Hlater : datetime.instant (clock (days_after 2))
                   ≤ datetime.instant (clock (days_after 3)))
    by (by vm_compute).
  split; [exact Hlater|]. split; [exact Hold|].
  exact (was_published_recently_expires whats_new (days_after 2)
           (days_after 3) Hlater Hold).
Defined.

(** X2: the answer follows the order of publication: at one reading of
    the clock, a Question published no earlier than a Question that is
    reported recent is reported recent too. *)
Theorem was_published_recently_later_publication
    (q1 q2 : Question) (w : World) :
  datetime.instant (pub_date q1) ≤ datetime.instant (pub_date q2) →
  result (was_published_recently q1 w) = true →
  result (was_published_recently q2 w) = true.
Proof.
  intros Hlater Hrecent. apply was_published_recently_true.
  apply was_published_recently_true in Hrecent. lia.
Qed.

Lemma was_published_recently_later_publication_witness :
  datetime.instant (pub_date whats_new)
  ≤ datetime.instant (pub_date whats_next)
  ∧ result (was_published_recently whats_new (days_after 1)) = true
  ∧ result (was_published_recently whats_next (days_after 1)) = true.
Proof.
  assert (Hrecent : result (was_published_recently whats_new (days_after 1))
                    = true) by reflexivity.
  assert (Hlater : datetime.instant (pub_date whats_new)
                   ≤ datetime.instant (pub_date whats_next))
    by (by vm_compute).
  split; [exact Hlater|]. split; [exact Hrecent|].
  exact (was_published_recently_later_publication whats_new whats_next
           (days_after 1) Hlater Hrecent).
Defined.

(** ** [__str__] *)

(** C5: [__str__] returns [question_text] of a Question and [choice_text]
    of a Choice verbatim; it leaves the receiver and the world as they
    were, and a second call returns the same string. *)
Theorem str_verbatim_and_pure (q : Question) (c : Choice) (w : World) :
  let rq := __str__ q w in
  let rc := __str__ c w in
  result rq = question_text q
  ∧ self_after rq = q ∧ world_after rq = w
  ∧ result (__str__ (self_after rq) (world_after rq)) = result rq
  ∧ result rc = choice_text c
  ∧ self_after rc = c ∧ world_after rc = w
  ∧ result (__str__ (self_after rc) (world_after rc)) = result rc.
Proof. cbv zeta. repeat split. Qed.


(** ** Properties of the persistence layer *)

Lemma fits_true (f : models.CharField) (s : string) :
  fits f s = true ↔ (String.length s ≤ models.max_length f)%nat.
Proof. unfold fits. apply Nat.leb_le. Qed.

Lemma fits_false (f : models.CharField) (s : string) :
  fits f s = false ↔ (models.max_length f < String.length s)%nat.
Proof. unfold fits. apply Nat.leb_gt. Qed.

Lemma in_range_true (f : models.PositiveIntegerField) (v : Z) :
  in_range f v = true ↔ 0 ≤ v.
Proof. unfold in_range. apply Z.leb_le. Qed.

Lemma in_range_false (f : models.PositiveIntegerField) (v : Z) :
  in_range f v = false ↔ v < 0.
Proof. unfold in_range. apply Z.leb_gt. Qed.

(** *** Transactions *)

(** A run that leaves no statement has executed the whole plan. *)
Lemma run_statements_finished (steps : nat) (plan : list statement)
    (work : Database) :
  (run_statements steps plan work).2 = [] →
  (run_statements steps plan work).1 = foldl (λ d s, execute s d) work plan.
Proof.
  revert steps work. induction plan as [|s rest IH]; intros steps work.
  - by destruct steps.
  - destruct steps as [|n]; cbn; [done|]. apply IH.
Qed.

(** With one step per statement the run finishes. *)
Lemma run_statements_all (plan : list statement) (work : Database) :
  run_statements (length plan) plan work
  = (foldl (λ d s, execute s d) work plan, []).
Proof.
  revert work. induction plan as [|s rest IH]; intros work; cbn; [done|].
  apply IH.
Qed.

Lemma transaction_complete (plan : list statement) (db : Database) :
  transaction (length plan) plan db = foldl (λ d s, execute s d) db plan.
Proof. unfold transaction. by rewrite run_statements_all. Qed.

(** A transaction commits the whole plan or nothing. *)
Lemma transaction_all_or_nothing (steps : nat) (plan : list statement)
    (db : Database) :
  transaction steps plan db = db
  ∨ transaction steps plan db = transaction (length plan) plan db.
Proof.
  rewrite transaction_complete. unfold transaction.
  pose proof (run_statements_finished steps plan db) as Hfin.
  destruct (run_statements steps plan db) as [work [|s rest]]; cbn in *.
  - right. by apply Hfin.
  - by left.
Qed.

(** *** The effect of the row deletions *)

Lemma execute_choices_fold (pks : list Z) (db : Database) :
  let db' := foldl (λ d s, execute s d) db (DELETE_Choice <$> pks) in
  questions db' = questions db
  ∧ next_question_id db' = next_question_id db
  ∧ next_choice_id db' = next_choice_id db
  ∧ ∀ pk, choices db' !! pk
          = if decide (pk ∈ pks) then None else choices db !! pk.
Proof.
  revert db. induction pks as [|p pks IH]; intros db; cbn.
  - by repeat split.
  - destruct (IH (execute (DELETE_Choice p) db)) as (Hq & Hnq & Hnc & Hc).
    cbn in *. rewrite Hq, Hnq, Hnc. repeat split. intros pk. rewrite Hc.
    destruct (decide (pk = p)) as [->|Hne].
    + rewrite lookup_delete_eq. rewrite (decide_True (P := p ∈ p :: pks));
        [by case_decide | by left].
    + rewrite lookup_delete_ne by done.
      destruct (decide (pk ∈ pks)) as [Hin|Hout].
      * rewrite decide_True; [done | by right].
      * rewrite decide_False; [done|]. by intros [?|?]%elem_of_cons.
Qed.

(** The keys of [choice_set q db] are the keys of the Choices that
    reference [q]. *)
Lemma elem_of_choice_set_keys (q : Question) (db : Database) (pk : Z) :
  pk ∈ (choice_set q db).*1
  ↔ ∃ c, choices db !! pk = Some c ∧ question_id c = Question_id q.
Proof.
  unfold choice_set. rewrite list_elem_of_fmap. split.
  - intros ([pk' c] & -> & Hin). apply elem_of_map_to_list in Hin.
    apply map_lookup_filter_Some in Hin as [Hc Hq]. by exists c.
  - intros (c & Hc & Hq). exists (pk, c). split; [done|].
    apply elem_of_map_to_list, map_lookup_filter_Some. done.
Qed.

(** The database that the plan of [delete_plan] leads to. *)
Lemma cascade_outcome (q : Question) (db : Database) :
  let plan := (DELETE_Choice <$> (choice_set q db).*1)
                ++ [DELETE_Question (Question_id q)] in
  let db' := foldl (λ d s, execute s d) db plan in
  questions db' = delete (Question_id q) (questions db)
  ∧ next_question_id db' = next_question_id db
  ∧ next_choice_id db' = next_choice_id db
  ∧ ∀ pk c, choices db' !! pk = Some c
            ↔ choices db !! pk = Some c ∧ question_id c ≠ Question_id q.
Proof.
  cbv zeta. rewrite foldl_app. cbn.
  destruct (execute_choices_fold (choice_set q db).*1 db)
    as (Hq & Hnq & Hnc & Hc).
  rewrite Hq, Hnq, Hnc. split; [done|]. split; [done|]. split; [done|].
  intros pk c. rewrite Hc. case_decide as Hin.
  - split; [done|]. intros [Hc' Hne]. destruct Hne.
    apply elem_of_choice_set_keys in Hin as (c' & Hc'' & Href). congruence.
  - split; [|by intros [? _]]. intros Hc'. split; [done|].
    intros Href. apply Hin, elem_of_choice_set_keys. eauto.
Qed.

Lemma delete_plan_cascade (q : Question) (db : Database) :
  delete_plan q db
  = Ok ((DELETE_Choice <$> (choice_set q db).*1)
          ++ [DELETE_Question (Question_id q)]).
Proof. reflexivity. Qed.

Lemma choice_set_nil (q : Question) (db : Database) :
  (∀ pk c, choices db !! pk = Some c → question_id c ≠ Question_id q) →
  choice_set q db = [].
Proof.
  intros Hnone. unfold choice_set.
  apply map_to_list_empty_iff, map_empty. intros pk.
  destruct (filter _ (choices db) !! pk) as [c|] eqn:E; [|done].
  apply map_lookup_filter_Some in E as [Hc Href]. by destruct (Hnone pk c).
Qed.

(** *** Cascading delete *)

(** C2: deleting a stored Question succeeds; afterwards neither the
    Question nor any Choice referencing it can be retrieved, every other
    row is still there, and at whatever statement the delete is cut
    short, the database that can be observed is either the one before the
    delete (nothing removed) or the one after it (the Question and all its
    Choices removed). *)
Theorem delete_question_cascades_atomically (q : Question) (db : Database) :
  is_Some (questions db !! Question_id q) →
  ∃ db',
    delete_question q db = Ok db'
    ∧ get_question (Question_id q) db' = Err NotFound
    ∧ choice_set q db' = []
    ∧ (∀ pk c, get_choice pk db' = Ok c → question_id c ≠ Question_id q)
    ∧ (∀ pk, pk ≠ Question_id q → questions db' !! pk = questions db !! pk)
    ∧ (∀ pk c, choices db !! pk = Some c → question_id c ≠ Question_id q →
               choices db' !! pk = Some c)
    ∧ ∀ steps, delete_observed steps q db = db
               ∨ delete_observed steps q db = db'.
Proof.
  intros [stored Hstored].
  pose proof (cascade_outcome q db) as Hout. cbv zeta in Hout.
  destruct Hout as (Hq & _ & _ & Hc).
  unfold delete_question, delete_observed.
  rewrite Hstored, delete_plan_cascade, transaction_complete.
  eexists. split; [reflexivity|].
  assert (Hgone : ∀ pk c,
    choices (foldl (λ d s, execute s d) db
               ((DELETE_Choice <$> (choice_set q db).*1)
                  ++ [DELETE_Question (Question_id q)])) !! pk = Some c →
    question_id c ≠ Question_id q).
  { intros pk c Hpk. by apply Hc in Hpk as [_ ?]. }
  split; [|split; [|split; [|split; [|split]]]].
  - unfold get_question. by rewrite Hq, lookup_delete_eq.
  - by apply choice_set_nil.
  - intros pk c. unfold get_choice.
    destruct (choices _ !! pk) as [c'|] eqn:E; [|done].
    intros [= ->]. by apply (Hgone pk).
  - intros pk Hne. by rewrite Hq, lookup_delete_ne.
  - intros pk c Hpk Hne. by apply Hc.
  - intros steps.
    destruct (transaction_all_or_nothing steps
                ((DELETE_Choice <$> (choice_set q db).*1)
                   ++ [DELETE_Question (Question_id q)]) db) as [H|H].
    + by left.
    + right. by rewrite H, transaction_complete.
Qed.

Lemma delete_question_cascades_atomically_witness :
  is_Some (questions poll_database !! Question_id whats_new)
  ∧ length (choice_set whats_new poll_database) = 2%nat
  ∧ ∃ db', delete_question whats_new poll_database = Ok db'
           ∧ get_question (Question_id whats_new) db' = Err NotFound
           ∧ choice_set whats_new db' = [].
Proof.
  assert (Hstored : is_Some (questions poll_database !! Question_id whats_new))
    by (exists whats_new; vm_compute; reflexivity).
  split; [exact Hstored|]. split; [vm_compute; reflexivity|].
  destruct (delete_question_cascades_atomically whats_new poll_database Hstored)
    as (db' & Hdel & Hq & Hcs & _).
  exists db'. auto.
Defined.

(** The scenario of the poll with its two choices: while the delete
    runs, its working copy passes through a state in which one Choice is
    gone and the Question is still there, but what is observable at that
    point is the database before the delete; once the delete is through,
    both tables are empty. *)
Example delete_question_scenario :
  let plan := (DELETE_Choice <$> (choice_set whats_new poll_database).*1)
                ++ [DELETE_Question (Question_id whats_new)] in
  let work := (run_statements 1 plan poll_database).1 in
  length plan = 3%nat
  ∧ get_question 1 work = Ok whats_new
  ∧ length (choice_set whats_new work) = 1%nat
  ∧ delete_observed 1 whats_new poll_database = poll_database
  ∧ questions (run [Delete whats_new] poll_database) = ∅
  ∧ choices (run [Delete whats_new] poll_database) = ∅.
Proof. cbv zeta. repeat split; by vm_compute. Qed.

(** *** The [votes] invariant *)

Lemma delete_observed_subset (steps : nat) (q : Question) (db : Database)
    (pk : Z) (c : Choice) :
  choices (delete_observed steps q db) !! pk = Some c →
  choices db !! pk = Some c.
Proof.
  unfold delete_observed.
  destruct (questions db !! Question_id q) as [stored|]; [|done].
  rewrite delete_plan_cascade.
  destruct (transaction_all_or_nothing steps
              ((DELETE_Choice <$> (choice_set q db).*1)
                 ++ [DELETE_Question (Question_id q)]) db) as [-> | ->];
    [done|].
  rewrite transaction_complete.
  pose proof (cascade_outcome q db) as Hout. cbv zeta in Hout.
  destruct Hout as (_ & _ & _ & Hc). intros Hpk. by apply Hc in Hpk as [? _].
Qed.

Lemma delete_question_subset (q : Question) (db db' : Database)
    (pk : Z) (c : Choice) :
  delete_question q db = Ok db' →
  choices db' !! pk = Some c →
  choices db !! pk = Some c.
Proof.
  unfold delete_question.
  destruct (questions db !! Question_id q) as [stored|]; [|done].
  rewrite delete_plan_cascade, transaction_complete. intros [= <-].
  pose proof (cascade_outcome q db) as Hout. cbv zeta in Hout.
  destruct Hout as (_ & _ & _ & Hc). intros Hpk. by apply Hc in Hpk as [? _].
Qed.

Lemma create_choice_Ok (q : Question) (text : string) (v : option Z)
    (db : Database) (c : Choice) (db' : Database) :
  create_choice q text v db = Ok (c, db') →
  is_Some (questions db !! Question_id q)
  ∧ fits Choice_choice_text text = true
  ∧ 0 ≤ default (models.default Choice_votes) v
  ∧ c = {| Choice_id := next_choice_id db;
           question_id := Question_id q;
           choice_text := text;
           votes := default (models.default Choice_votes) v |}
  ∧ db' = {| questions := questions db;
             choices := <[next_choice_id db := c]> (choices db);
             next_question_id := next_question_id db;
             next_choice_id := next_choice_id db + 1 |}.
Proof.
  unfold create_choice.
  destruct (questions db !! Question_id q) as [stored|]; [|done].
  destruct (fits Choice_choice_text text); [|done].
  destruct (in_range Choice_votes _) eqn:Hrange; [|done].
  cbn. intros [= <- <-]. apply in_range_true in Hrange. eauto 10.
Qed.

(** Every operation keeps the invariant. *)
Lemma step_votes_non_negative (op : operation) (db : Database) :
  votes_non_negative db → votes_non_negative (step op db).
Proof.
  intros Hinv. destruct op as [text date|q text v|q|steps q|pk]; cbn.
  - unfold create. destruct (fits _ text); [|done].
    by destruct date.
  - destruct (create_choice q text v db) as [[c db']|e] eqn:E; [|done].
    apply create_choice_Ok in E as (_ & _ & Hv & -> & ->).
    intros pk c. cbn. destruct (decide (next_choice_id db = pk)) as [->|Hne].
    + rewrite lookup_insert_eq. by intros [= <-].
    + rewrite lookup_insert_ne by done. apply Hinv.
  - destruct (delete_question q db) as [db'|e] eqn:E; [|done].
    intros pk c Hpk. apply (Hinv pk). by eapply delete_question_subset.
  - intros pk c Hpk. apply (Hinv pk). by eapply delete_observed_subset.
  - unfold increment_votes.
    destruct (choices db !! pk) as [c|] eqn:E; [|done]. cbn.
    destruct (in_range Choice_votes (votes c + 1)) eqn:Hrange; [|done].
    apply in_range_true in Hrange. cbn.
    intros pk' c'. cbn. destruct (decide (pk = pk')) as [->|Hne].
    + rewrite lookup_insert_eq. by intros [= <-].
    + rewrite lookup_insert_ne by done. apply Hinv.
Qed.

Lemma run_votes_non_negative (ops : list operation) (db : Database) :
  votes_non_negative db → votes_non_negative (run ops db).
Proof.
  revert db. induction ops as [|op ops IH]; intros db Hinv; [done|].
  cbn. apply IH. by apply step_votes_non_negative.
Qed.

(** C7: [votes >= 0] holds for every stored Choice at all times: in every
    database reached from the empty one by any history of operations,
    each operation keeps it, and a Choice created without an explicit
    [votes] gets the declared default, 0. *)
Theorem votes_never_negative (ops : list operation) (op : operation)
    (db : Database) (q : Question) (text : string) :
  (∀ pk c, get_choice pk (run ops empty_database) = Ok c → 0 ≤ votes c)
  ∧ (votes_non_negative db → votes_non_negative (step op db))
  ∧ models.default Choice_votes = 0
  ∧ create_choice q text None db = create_choice q text (Some 0) db
  ∧ (∀ c db', create_choice q text None db = Ok (c, db') →
              votes c = 0 ∧ get_choice (Choice_id c) db' = Ok c).
Proof.
  split; [|split; [|split; [|split]]].
  - intros pk c. unfold get_choice.
    destruct (choices _ !! pk) as [c'|] eqn:E; [|done]. intros [= ->].
    eapply (run_votes_non_negative ops empty_database); [|exact E].
    intros pk' c'. cbn. by rewrite lookup_empty.
  - apply step_votes_non_negative.
  - reflexivity.
  - reflexivity.
  - intros c db' (_ & _ & _ & -> & ->)%create_choice_Ok. cbn. split; [done|].
    unfold get_choice; cbn. by rewrite lookup_insert_eq.
Qed.

(** *** Creation *)

Lemma create_Ok (text : string) (d : datetime.datetime) (db : Database) :
  (String.length text ≤ 200)%nat →
  let q := {| Question_id := next_question_id db;
              question_text := text;
              pub_date := d |} in
  create text (Some d) db
  = Ok (q, {| questions := <[next_question_id db := q]> (questions db);
              choices := choices db;
              next_question_id := next_question_id db + 1;
              next_choice_id := next_choice_id db |}).
Proof.
  intros Hlen. unfold create.
  by rewrite (proj2 (fits_true Question_question_text text) Hlen).
Qed.

Lemma create_Err (text : string) (date : option datetime.datetime)
    (db : Database) :
  (200 < String.length text)%nat ∨ date = None →
  create text date db = Err ConstraintViolation.
Proof.
  unfold create. intros [Hlen | ->].
  - by rewrite (proj2 (fits_false Question_question_text text) Hlen).
  - by destruct (fits _ text).
Qed.

Lemma create_choice_Err (q : Question) (text : string) (v : option Z)
    (db : Database) :
  questions db !! Question_id q = None
  ∨ (200 < String.length text)%nat
  ∨ default 0 v < 0 →
  create_choice q text v db = Err ConstraintViolation.
Proof.
  unfold create_choice. intros [-> | [Hlen | Hneg]]; [done | |].
  - destruct (questions db !! Question_id q); [|done].
    by rewrite (proj2 (fits_false Choice_choice_text text) Hlen).
  - destruct (questions db !! Question_id q); [|done].
    destruct (fits _ text); [|done].
    change (models.default Choice_votes) with 0.
    by rewrite (proj2 (in_range_false Choice_votes _) Hneg).
Qed.

(** C6, amended: [create] fails, with a [ConstraintViolation], exactly
    when [question_text] has more than 200 characters or [pub_date] is
    missing; [create_choice] fails, with a [ConstraintViolation], exactly
    when the referenced Question is not stored, [choice_text] has more
    than 200 characters, or [votes] is negative; in every other case the
    creation succeeds and the new entity can be looked up by its id. *)
Theorem creation_fails_exactly_on_violation
    (text : string) (date : option datetime.datetime)
    (q : Question) (choice : string) (v : option Z) (db : Database) :
  (create text date db = Err ConstraintViolation
   ↔ (200 < String.length text)%nat ∨ date = None)
  ∧ ((∃ q' db', create text date db = Ok (q', db')
                ∧ get_question (Question_id q') db' = Ok q')
     ↔ (String.length text ≤ 200)%nat ∧ is_Some date)
  ∧ (create_choice q choice v db = Err ConstraintViolation
     ↔ questions db !! Question_id q = None
       ∨ (200 < String.length choice)%nat
       ∨ default 0 v < 0)
  ∧ ((∃ c db', create_choice q choice v db = Ok (c, db')
               ∧ get_choice (Choice_id c) db' = Ok c)
     ↔ is_Some (questions db !! Question_id q)
       ∧ (String.length choice ≤ 200)%nat
       ∧ 0 ≤ default 0 v).
Proof.
  assert (Hq : ∀ d, (String.length text ≤ 200)%nat →
    ∃ q' db', create text (Some d) db = Ok (q', db')
              ∧ get_question (Question_id q') db' = Ok q').
  { intros d Hlen. do 2 eexists. split; [by apply create_Ok|].
    unfold get_question; cbn. by rewrite lookup_insert_eq. }
  split; [|split; [|split]].
  - split; [|apply create_Err]. intros Hfail.
    destruct (decide (200 < String.length text)%nat) as [|Hlen]; [by left|].
    destruct date as [d|]; [|by right].
    rewrite create_Ok in Hfail by lia. done.
  - split.
    + intros (q' & db' & Hok & _).
      destruct (decide (200 < String.length text)%nat) as [Hlen|Hlen].
      { rewrite create_Err in Hok by (by left). done. }
      destruct date as [d|]; [split; [lia | by eexists]|].
      rewrite create_Err in Hok by (by right). done.
    + intros [Hlen [d ->]]. by apply Hq.
  - split; [|apply create_choice_Err]. intros Hfail.
    unfold create_choice in Hfail.
    destruct (questions db !! Question_id q) as [stored|]; [|by left].
    destruct (fits Choice_choice_text choice) eqn:Hfits; cbn in Hfail.
    + destruct (in_range Choice_votes _) eqn:Hrange; [done|].
      apply in_range_false in Hrange. by right; right.
    + apply fits_false in Hfits. by right; left.
  - split.
    + intros (c & db' & (Hstored & Hfits & Hv & _)%create_choice_Ok & _).
      apply fits_true in Hfits. done.
    + intros ([stored Hstored] & Hlen & Hv). unfold create_choice.
      rewrite Hstored, (proj2 (fits_true Choice_choice_text choice) Hlen).
      change (models.default Choice_votes) with 0.
      rewrite (proj2 (in_range_true Choice_votes _) Hv). cbn.
      do 2 eexists. split; [reflexivity|].
      unfold get_choice; cbn. by rewrite lookup_insert_eq.
Qed.

(** C6, as stated, fails: a Choice with a negative [votes] is refused
    with a [ConstraintViolation] although the referenced Question is
    stored and [choice_text] is short. *)
Lemma create_choice_refuses_negative_votes :
  create_choice whats_new "Maybe" (Some (-1)) poll_database
  = Err ConstraintViolation
  ∧ get_question (Question_id whats_new) poll_database = Ok whats_new
  ∧ (String.length "Maybe" ≤ 200)%nat.
Proof.
  split; [by vm_compute|]. split; [by vm_compute|]. cbn. lia.
Qed.

(** C8: for a [question_text] of at most 200 characters and a [pub_date],
    [create] succeeds, and looking the returned Question up by its id
    gives a Question with the same [question_text] and [pub_date]. *)
Theorem create_then_lookup (text : string) (d : datetime.datetime)
    (db : Database) :
  (String.length text ≤ 200)%nat →
  ∃ q db',
    create text (Some d) db = Ok (q, db')
    ∧ ∃ found, get_question (Question_id q) db' = Ok found
               ∧ question_text found = text
               ∧ pub_date found = d.
Proof.
  intros Hlen. do 2 eexists. split; [by apply create_Ok|].
  eexists. unfold get_question; cbn. rewrite lookup_insert_eq. done.
Qed.

Lemma create_then_lookup_witness :
  (String.length "What's new?" ≤ 200)%nat
  ∧ ∃ q db',
      create "What's new?" (Some new_year_2024) empty_database = Ok (q, db')
      ∧ ∃ found, get_question (Question_id q) db' = Ok found
                 ∧ question_text found = "What's new?"
                 ∧ pub_date found = new_year_2024.
Proof.
  assert (Hlen : (String.length "What's new?" ≤ 200)%nat) by (cbn; lia).
  split; [exact Hlen|].
  exact (create_then_lookup "What's new?" new_year_2024 empty_database Hlen).
Defined.

(** *** The foreign key of a Choice *)

Lemma delete_question_Ok (q : Question) (db db' : Database) :
  delete_question q db = Ok db' →
  questions db' = delete (Question_id q) (questions db)
  ∧ ∀ pk c, choices db' !! pk = Some c
            ↔ choices db !! pk = Some c ∧ question_id c ≠ Question_id q.
Proof.
  unfold delete_question.
  destruct (questions db !! Question_id q) as [stored|]; [|done].
  rewrite delete_plan_cascade, transaction_complete. intros [= <-].
  pose proof (cascade_outcome q db) as Hout. cbv zeta in Hout.
  by destruct Hout as (Hq & _ & _ & Hc).
Qed.

Lemma delete_observed_cases (steps : nat) (q : Question) (db : Database) :
  delete_observed steps q db = db
  ∨ delete_question q db = Ok (delete_observed steps q db).
Proof.
  unfold delete_observed, delete_question.
  destruct (questions db !! Question_id q) as [stored|]; [|by left].
  rewrite delete_plan_cascade.
  destruct (transaction_all_or_nothing steps
              ((DELETE_Choice <$> (choice_set q db).*1)
                 ++ [DELETE_Question (Question_id q)]) db) as [-> | ->];
    [by left | by right].
Qed.

Lemma delete_question_keeps_foreign_key (q : Question) (db db' : Database) :
  delete_question q db = Ok db' →
  every_choice_has_its_question db → every_choice_has_its_question db'.
Proof.
  intros [Hq Hc]%delete_question_Ok Hinv pk c [Hpk Hne]%Hc.
  rewrite Hq, lookup_delete_ne by done. by apply (Hinv pk).
Qed.

(** Every operation keeps the foreign key of every stored Choice
    pointing at a stored Question. *)
Lemma step_keeps_foreign_key (op : operation) (db : Database) :
  every_choice_has_its_question db →
  every_choice_has_its_question (step op db).
Proof.
  intros Hinv. destruct op as [text date|q text v|q|steps q|pk]; cbn.
  - unfold create. destruct (fits _ text); [|done].
    destruct date as [d|]; [|done]. intros pk c Hpk; cbn in *.
    apply lookup_insert_is_Some'. right. by apply (Hinv pk).
  - destruct (create_choice q text v db) as [[c db']|e] eqn:E; [|done].
    apply create_choice_Ok in E as (Hstored & _ & _ & -> & ->).
    intros pk c. cbn. destruct (decide (next_choice_id db = pk)) as [->|Hne].
    + rewrite lookup_insert_eq. by intros [= <-].
    + rewrite lookup_insert_ne by done. apply Hinv.
  - destruct (delete_question q db) as [db'|e] eqn:E; [|done].
    by eapply delete_question_keeps_foreign_key.
  - destruct (delete_observed_cases steps q db) as [-> | Hdel]; [done|].
    by eapply delete_question_keeps_foreign_key.
  - unfold increment_votes.
    destruct (choices db !! pk) as [c|] eqn:E; [|done]. cbn.
    destruct (in_range Choice_votes (votes c + 1)); [|done]. cbn.
    intros pk' c'. cbn. destruct (decide (pk = pk')) as [->|Hne].
    + rewrite lookup_insert_eq. intros [= <-]. cbn. by apply (Hinv pk').
    + rewrite lookup_insert_ne by done. apply Hinv.
Qed.

Lemma run_keeps_foreign_key (ops : list operation) (db : Database) :
  every_choice_has_its_question db →
  every_choice_has_its_question (run ops db).
Proof.
  revert db. induction ops as [|op ops IH]; intros db Hinv; [done|].
  cbn. apply IH. by apply step_keeps_foreign_key.
Qed.

(** X3: each stored Choice is related to a stored Question: in every
    database reached from the empty one by any history of creations,
    deletes (also cut short) and increments, the Question that a
    retrievable Choice references is retrievable too. *)
Theorem choice_question_is_stored (ops : list operation) (pk : Z)
    (c : Choice) :
  get_choice pk (run ops empty_database) = Ok c →
  ∃ q, get_question (question_id c) (run ops empty_database) = Ok q.
Proof.
  unfold get_choice, get_question.
  destruct (choices _ !! pk) as [c'|] eqn:E; [|done]. intros [= ->].
  assert (Hinv : every_choice_has_its_question (run ops empty_database)).
  { apply run_keeps_foreign_key. intros pk' c'. cbn. by rewrite lookup_empty. }
  destruct (Hinv pk c E) as [q ->]. by exists q.
Qed.

Lemma choice_question_is_stored_witness :
  ∃ c, get_choice 2 (run poll_history empty_database) = Ok c
       ∧ choice_text c = "The sky"
       ∧ ∃ q, get_question (question_id c) (run poll_history empty_database)
              = Ok q.
Proof.
  assert (Hc : get_choice 2 (run poll_history empty_database)
               = Ok {| Choice_id := 2; question_id := 1;
                       choice_text := "The sky"; votes := 0 |})
    by (by vm_compute).
  eexists. split; [exact Hc|]. split; [reflexivity|].
  exact (choice_question_is_stored poll_history 2 _ Hc).
Defined.
